(** * Windows event log analyzer (loganalyzer.py): parser and detection rules

    A shallow embedding of [parse_event], [analyze_events], [display_alerts],
    [save_alerts_csv] and the [__main__] block, and the properties of the
    record parser, of the detection rules, of the display and export and of
    the whole script proved on it.

    Python values are modelled as follows: a [str] is a [string], an [int] is
    a [Z], a value that is either a [str] or [None] is an [option string]
    ([None] is Python's [None]), a [dict] used as a map is a [gmap], a [dict]
    with a fixed set of keys is a record, a [list] is a [list], and a raised
    exception is the left injection of a sum. *)

From Stdlib Require Import Ascii.
From stdpp Require Import gmap strings list fin_maps pretty.

Open Scope Z_scope.

(** ** Exceptions *)

(** The exceptions the modelled code can raise.  [ParseError] is
    [xml.etree.ElementTree.ParseError], [MarkupError] is
    [rich.errors.MarkupError]; the others are builtins. *)
Inductive exn : Set :=
  | ParseError
  | AttributeError
  | TypeError
  | ValueError
  | KeyError
  | MarkupError.

#[global] Instance exn_eq_dec : EqDecision exn.
Proof. solve_decision. Defined.

(** A computation that returns an [A] or raises. *)
Definition result (A : Type) : Type := exn + A.

Definition ret {A} (a : A) : result A := inr a.
Definition raise {A} (e : exn) : result A := inl e.
Definition bind {A B} (c : result A) (k : A → result B) : result B :=
  match c with
  | inl e => inl e
  | inr a => k a
  end.

Notation "'let*' x := c 'in' k" := (bind c (λ x, k))
  (at level 10, x name, c at level 100, k at level 200).

(** ** ElementTree elements *)

(** An [xml.etree.ElementTree.Element]: the tag (in Clark notation,
    [{uri}local]), the attribute dict, the text before the first child
    ([None] when there is none) and the children in document order. *)
#[warnings="-register-all"]
Inductive Element : Type :=
  | mkElement (tag : string) (attrib : gmap string string)
              (text : option string) (children : list Element).

Definition tag (e : Element) : string :=
  match e with mkElement t _ _ _ => t end.
Definition attrib (e : Element) : gmap string string :=
  match e with mkElement _ a _ _ => a end.
Definition text (e : Element) : option string :=
  match e with mkElement _ _ x _ => x end.
Definition children (e : Element) : list Element :=
  match e with mkElement _ _ _ cs => cs end.

(** [Element.iter(tag)]: the element itself and all its descendants, in
    document order, that carry the tag. *)
Fixpoint iter (t : string) (e : Element) : list Element :=
  match e with
  | mkElement t' _ _ cs =>
      (if decide (t' = t) then [e] else []) ++ flat_map (iter t) cs
  end.

(** [Element.iter()] without a tag: the whole subtree in document order. *)
Fixpoint iter_all (e : Element) : list Element :=
  match e with
  | mkElement _ _ _ cs => e :: flat_map iter_all cs
  end.

(** The proper descendants of an element, in document order. *)
Definition descendants (e : Element) : list Element :=
  flat_map iter_all (children e).

(** ** ElementPath *)

(** One step of a compiled ElementPath expression. *)
Inductive step : Type :=
  | Self                                  (* [.]              *)
  | Child (t : string)                    (* [tag]            *)
  | Descendant (t : string)               (* [//tag]          *)
  | AttrEq (key value : string).          (* [[@key='value']] *)

(** The selector of a step maps the current result sequence to the next one
    ([prepare_self], [prepare_child], [prepare_descendant] and
    [prepare_predicate] of [xml.etree.ElementPath]).  The descendant selector
    runs [iter] on every element and drops the element itself, that is, it
    runs [iter] on each child. *)
Definition select (st : step) (res : list Element) : list Element :=
  match st with
  | Self => res
  | Child t =>
      flat_map (λ elem, filter (λ e, tag e = t) (children elem)) res
  | Descendant t =>
      flat_map (λ elem, flat_map (iter t) (children elem)) res
  | AttrEq key value =>
      filter (λ elem, attrib elem !! key = Some value) res
  end.

Definition iterfind (elem : Element) (path : list step) : list Element :=
  fold_left (λ res st, select st res) path [elem].

(** [Element.find(path, namespaces)]: the first match, or [None]. *)
Definition find (elem : Element) (path : list step) : option Element :=
  head (iterfind elem path).

(** The namespace map [ns] of [parse_event] sends the prefix [ns] to this URI. *)
Definition ns_uri : string :=
  "http://schemas.microsoft.com/win/2004/08/events/event".

(** The tag that the prefixed name [ns:local] stands for. *)
Definition ns (local : string) : string := "{" +:+ ns_uri +:+ "}" +:+ local.

(** ** Configuration *)

Definition FAILED_LOGIN_EVENT_ID : Z := 4625.
Definition ACCOUNT_CREATED_EVENT_ID : Z := 4720.
Definition PRIV_ESCALATION_EVENT_ID : Z := 4672.
Definition SERVICE_STOP_EVENT_ID : Z := 7036.
Definition FAILED_LOGIN_THRESHOLD : Z := 5.

(** ** Events and alerts *)

(** The dict returned by [parse_event], keys [EventID], [Time], [Account]
    and [Message]. *)
Record Event : Type := mkEvent {
  ev_EventID : Z;
  ev_Time : string;
  ev_Account : option string;
  ev_Message : option string;
}.

(** The dict appended to [alerts], keys [Time], [Account], [Type] and
    [Details], in this order. *)
Record Alert : Type := mkAlert {
  al_Time : string;
  al_Account : option string;
  al_Type : string;
  al_Details : option string;
}.

#[global] Instance Event_eq_dec : EqDecision Event.
Proof. solve_decision. Defined.
#[global] Instance Alert_eq_dec : EqDecision Alert.
Proof. solve_decision. Defined.

(** ** The record parser *)

Section Parser.

(** [ET.fromstring]: the XML parser of the standard library.  It returns
    the root element or raises [ParseError] on text that is not well-formed
    XML. *)
Variable fromstring : string → result Element.

(** The builtin [int] on a [str]: [None] when it raises [ValueError]. *)
Variable int_of_str : string → option Z.

(** [elem.text], where [elem] may be [None]. *)
Definition get_text (elem : option Element) : result (option string) :=
  match elem with
  | None => raise AttributeError
  | Some e => ret (text e)
  end.

(** [elem.attrib], where [elem] may be [None]. *)
Definition get_attrib (elem : option Element) : result (gmap string string) :=
  match elem with
  | None => raise AttributeError
  | Some e => ret (attrib e)
  end.

(** [int(v)], where [v] is a [str] or [None]. *)
Definition int (v : option string) : result Z :=
  match v with
  | None => raise TypeError
  | Some s =>
      match int_of_str s with
      | None => raise ValueError
      | Some n => ret n
      end
  end.

(** [d[key]] on a dict. *)
Definition getitem (d : gmap string string) (key : string) : result string :=
  match d !! key with
  | None => raise KeyError
  | Some v => ret v
  end.

(** [ns:System/ns:EventID] *)
Definition path_EventID : list step := [Child (ns "System"); Child (ns "EventID")].
(** [ns:System/ns:TimeCreated] *)
Definition path_TimeCreated : list step :=
  [Child (ns "System"); Child (ns "TimeCreated")].
(** [.//ns:Data[@Name='TargetUserName']] *)
Definition path_TargetUserName : list step :=
  [Self; Descendant (ns "Data"); AttrEq "Name" "TargetUserName"].
(** [.//ns:RenderingInfo/ns:Message] *)
Definition path_Message : list step :=
  [Self; Descendant (ns "RenderingInfo"); Child (ns "Message")].

Definition parse_event (record_xml : string) : result Event :=
  let* root := fromstring record_xml in
  let* event_id_text := get_text (find root path_EventID) in
  let* event_id := int event_id_text in
  let* time_attrib := get_attrib (find root path_TimeCreated) in
  let* time_created := getitem time_attrib "SystemTime" in
  let account_name_elem := find root path_TargetUserName in
  let account_name :=
    match account_name_elem with
    | Some e => text e
    | None => Some "N/A"
    end in
  let message_elem := find root path_Message in
  let message :=
    match message_elem with
    | Some e => text e
    | None => Some ""
    end in
  ret {| ev_EventID := event_id;
         ev_Time := time_created;
         ev_Account := account_name;
         ev_Message := message |}.

End Parser.

(** ** The detection engine *)

(** The two module-level variables: the [defaultdict(int)] of failed logins
    per account and the list of alerts.  An account is a [str] or [None],
    both of which are dict keys. *)
Record State : Type := mkState {
  failed_logins : gmap (option string) Z;
  alerts : list Alert;
}.

(** The state when the module is loaded. *)
Definition initial_state : State :=
  {| failed_logins := ∅; alerts := [] |}.

(** Reading [d[key]] on a [defaultdict(int)]: a missing key reads as [int()],
    which is 0. *)
Definition dd_get (d : gmap (option string) Z) (key : option string) : Z :=
  default 0 (d !! key).

(** The body of the loop of [analyze_events] for one parsed event: the
    [if]/[elif] chain on [event["EventID"]]. *)
Definition analyze_event (event : Event) (s : State) : State :=
  if decide (ev_EventID event = FAILED_LOGIN_EVENT_ID) then
    let failed_logins' :=
      <[ev_Account event := dd_get (failed_logins s) (ev_Account event) + 1]>
        (failed_logins s) in
    if decide (FAILED_LOGIN_THRESHOLD ≤ dd_get failed_logins' (ev_Account event)) then
      {| failed_logins := failed_logins';
         alerts := alerts s ++
           [ {| al_Time := ev_Time event;
                al_Account := ev_Account event;
                al_Type := "Multiple Failed Logins";
                al_Details :=
                  Some (pretty (dd_get failed_logins' (ev_Account event))
                        +:+ " failed attempts") |} ] |}
    else
      {| failed_logins := failed_logins'; alerts := alerts s |}
  else if decide (ev_EventID event = ACCOUNT_CREATED_EVENT_ID) then
    {| failed_logins := failed_logins s;
       alerts := alerts s ++
         [ {| al_Time := ev_Time event;
              al_Account := ev_Account event;
              al_Type := "New User Account Created";
              al_Details := ev_Message event |} ] |}
  else if decide (ev_EventID event = PRIV_ESCALATION_EVENT_ID) then
    {| failed_logins := failed_logins s;
       alerts := alerts s ++
         [ {| al_Time := ev_Time event;
              al_Account := ev_Account event;
              al_Type := "Privilege Escalation";
              al_Details := ev_Message event |} ] |}
  else if decide (ev_EventID event = SERVICE_STOP_EVENT_ID) then
    {| failed_logins := failed_logins s;
       alerts := alerts s ++
         [ {| al_Time := ev_Time event;
              al_Account := ev_Account event;
              al_Type := "Service Stopped";
              al_Details := ev_Message event |} ] |}
  else s.

(** The events of a stream processed in order. *)
Definition analyze_stream (events : list Event) (s : State) : State :=
  fold_left (λ s event, analyze_event event s) events s.

Section Analyzer.

Variable fromstring : string → result Element.
Variable int_of_str : string → option Z.

(** [analyze_events] on the XML texts of the records of the log, in the
    order [log.records()] yields them.  An exception of [parse_event] ends
    the loop; the module-level state keeps what the earlier records did. *)
Fixpoint analyze_events (records : list string) (s : State) : result () * State :=
  match records with
  | [] => (ret (), s)
  | record_xml :: rest =>
      match parse_event fromstring int_of_str record_xml with
      | inl e => (raise e, s)
      | inr event => analyze_events rest (analyze_event event s)
      end
  end.

End Analyzer.

(** ** The CSV export *)

(** A [pandas.DataFrame] of strings and [None]: the column labels and the
    rows. *)
Record DataFrame : Type := mkDataFrame {
  columns : list string;
  rows : list (list (option string));
}.

(** The keys of an alert dict in insertion order, and its values. *)
Definition alert_keys : list string := ["Time"; "Account"; "Type"; "Details"].
Definition alert_values (a : Alert) : list (option string) :=
  [Some (al_Time a); al_Account a; Some (al_Type a); al_Details a].

(** [pd.DataFrame(records)] on a list of alert dicts: the columns are the
    keys of the dicts in order of first appearance, one row per dict. *)
Definition DataFrame_of_records (records : list Alert) : DataFrame :=
  {| columns := match records with [] => [] | _ :: _ => alert_keys end;
     rows := map alert_values records |}.

(** A written CSV file as the table of its cells, the header row first.  The
    encoding of a row as text (quoting, line terminator) is left to the [csv]
    module and is not modelled. *)
Definition csv_file : Type := list (list string).

(** [df.to_csv(filename, index=False)]: the header row of column labels,
    then one row per row of the frame; a missing value is written as the
    empty cell. *)
Definition to_csv (df : DataFrame) : csv_file :=
  columns df :: map (map (default "")) (rows df).

(** The world outside the process: the files written, by name, and the lines
    printed on the console. *)
Record World : Type := mkWorld {
  files : gmap string csv_file;
  console : list string;
}.

Definition save_alerts_csv (filename : string) (s : State) (w : World) : World :=
  match alerts s with
  | [] => w
  | _ :: _ =>
      let df := DataFrame_of_records (alerts s) in
      {| files := <[filename := to_csv df]> (files w);
         console := console w ++ ["[blue]Alerts saved to " +:+ filename +:+ "[/blue]"] |}
  end.

(** ** The builtin [int] on ASCII text *)

(** [int(s)] for a [str] of ASCII characters, after [PyLong_FromString] in
    base 10: white space, an optional sign, decimal digits that single
    underscores may separate, white space.  [None] stands for [ValueError].
    The default limit of 4300 digits is applied.  The definition is for
    ASCII text only: [int] also accepts the decimal digits and the white
    space of other scripts, which are rejected here.  The statements below
    hold for any [int_of_str]; this one instantiates them on ASCII samples. *)
Definition is_space (c : ascii) : bool :=
  bool_decide (Ascii.N_of_ascii c ∈ [9; 10; 11; 12; 13; 32]%N).

Definition is_digit (c : ascii) : bool :=
  bool_decide (48 ≤ Ascii.N_of_ascii c ≤ 57)%N.

Definition digit_value (c : ascii) : Z := Z.of_N (Ascii.N_of_ascii c) - 48.

Fixpoint skip_spaces (cs : list ascii) : list ascii :=
  match cs with
  | c :: rest => if is_space c then skip_spaces rest else cs
  | [] => []
  end.

(** The digit loop: the value read so far, the number of digits, whether the
    previous character was an underscore; it returns the value, the number of
    digits and the unread rest. *)
Fixpoint scan_digits (cs : list ascii) (prev_underscore : bool) (acc : Z)
    (digits : nat) : option (Z * nat * list ascii) :=
  match cs with
  | c :: rest =>
      if is_digit c then
        scan_digits rest false (10 * acc + digit_value c) (S digits)
      else if bool_decide (c = "_"%char) then
        if prev_underscore then None else scan_digits rest true acc digits
      else if prev_underscore then None else Some (acc, digits, cs)
  | [] => if prev_underscore then None else Some (acc, digits, [])
  end.

Definition int_max_str_digits : nat := 4300.

Definition str_to_int (s : string) : option Z :=
  let cs := skip_spaces (String.list_ascii_of_string s) in
  let '(sign, cs) :=
    match cs with
    | "+"%char :: rest => (1, rest)
    | "-"%char :: rest => (-1, rest)
    | _ => (1, cs)
    end in
  match cs with
  | "_"%char :: _ => None
  | _ =>
      match scan_digits cs false 0 0 with
      | Some (n, digits, rest) =>
          if bool_decide (digits = 0%nat) then None
          else if bool_decide (int_max_str_digits < digits)%nat then None
          else match skip_spaces rest with
               | [] => Some (sign * n)
               | _ :: _ => None
               end
      | None => None
      end
  end.

(** ** Record shapes *)

(** The element that [.//ns:Data[@Name='TargetUserName']] looks for. *)
Definition is_TargetUserName (e : Element) : Prop :=
  tag e = ns "Data" ∧ attrib e !! "Name" = Some "TargetUserName".

#[global] Instance is_TargetUserName_dec e : Decision (is_TargetUserName e).
Proof. unfold is_TargetUserName. apply _. Defined.

(** The record has no [Data] element named [TargetUserName] below the root. *)
Definition lacks_TargetUserName (root : Element) : Prop :=
  Forall (λ e, ¬ is_TargetUserName e) (descendants root).

(** The record has no [Message] child of a [RenderingInfo] element below the
    root. *)
Definition lacks_Message (root : Element) : Prop :=
  Forall (λ ri, tag ri = ns "RenderingInfo" →
                Forall (λ m, tag m ≠ ns "Message") (children ri))
         (descendants root).

(** The record has no [EventID] child of a [System] child of the root. *)
Definition lacks_EventID (root : Element) : Prop :=
  Forall (λ sys, tag sys = ns "System" →
                 Forall (λ c, tag c ≠ ns "EventID") (children sys))
         (children root).

#[global] Instance lacks_TargetUserName_dec root : Decision (lacks_TargetUserName root).
Proof. unfold lacks_TargetUserName. apply _. Defined.
#[global] Instance lacks_Message_dec root : Decision (lacks_Message root).
Proof. unfold lacks_Message. apply _. Defined.
#[global] Instance lacks_EventID_dec root : Decision (lacks_EventID root).
Proof. unfold lacks_EventID. apply _. Defined.

(** ** Sample records *)

Definition element (local : string) (attrs : list (string * string))
    (txt : option string) (cs : list Element) : Element :=
  mkElement (ns local) (list_to_map attrs) txt cs.

Definition wrap_event (body : string) : string :=
  "<Event xmlns='" +:+ ns_uri +:+ "'>" +:+ body +:+ "</Event>".

(** A failed login with an account and a rendered message. *)
Definition full_xml : string := wrap_event
  ("<System><EventID>4625</EventID><TimeCreated SystemTime='2024-05-01 10:00:00'/></System>"
   +:+ "<EventData><Data Name='SubjectUserName'>-</Data><Data Name='TargetUserName'>bob</Data></EventData>"
   +:+ "<RenderingInfo><Message>An account failed to log on.</Message></RenderingInfo>").
Definition full_root : Element :=
  element "Event" [] None
    [ element "System" [] None
        [ element "EventID" [] (Some "4625") [];
          element "TimeCreated" [("SystemTime", "2024-05-01 10:00:00")] None [] ];
      element "EventData" [] None
        [ element "Data" [("Name", "SubjectUserName")] (Some "-") [];
          element "Data" [("Name", "TargetUserName")] (Some "bob") [] ];
      element "RenderingInfo" [] None
        [ element "Message" [] (Some "An account failed to log on.") [] ] ].

(** A service stop: neither an account nor a rendered message. *)
Definition bare_xml : string := wrap_event
  "<System><EventID>7036</EventID><TimeCreated SystemTime='2024-05-01 10:05:00'/></System>".
Definition bare_root : Element :=
  element "Event" [] None
    [ element "System" [] None
        [ element "EventID" [] (Some "7036") [];
          element "TimeCreated" [("SystemTime", "2024-05-01 10:05:00")] None [] ] ].

(** The account element and the message element are there, and empty. *)
Definition empty_fields_xml : string := wrap_event
  ("<System><EventID>4625</EventID><TimeCreated SystemTime='2024-05-01 10:10:00'/></System>"
   +:+ "<EventData><Data Name='TargetUserName'/></EventData>"
   +:+ "<RenderingInfo><Message></Message></RenderingInfo>").
Definition empty_fields_root : Element :=
  element "Event" [] None
    [ element "System" [] None
        [ element "EventID" [] (Some "4625") [];
          element "TimeCreated" [("SystemTime", "2024-05-01 10:10:00")] None [] ];
      element "EventData" [] None
        [ element "Data" [("Name", "TargetUserName")] None [] ];
      element "RenderingInfo" [] None
        [ element "Message" [] None [] ] ].

(** No event id. *)
Definition no_id_xml : string := wrap_event
  "<System><TimeCreated SystemTime='2024-05-01 10:15:00'/></System>".
Definition no_id_root : Element :=
  element "Event" [] None
    [ element "System" [] None
        [ element "TimeCreated" [("SystemTime", "2024-05-01 10:15:00")] None [] ] ].

(** An event id that is not a number. *)
Definition bad_id_xml : string := wrap_event
  "<System><EventID>abc</EventID><TimeCreated SystemTime='2024-05-01 10:20:00'/></System>".
Definition bad_id_root : Element :=
  element "Event" [] None
    [ element "System" [] None
        [ element "EventID" [] (Some "abc") [];
          element "TimeCreated" [("SystemTime", "2024-05-01 10:20:00")] None [] ] ].

(** An event id element without text. *)
Definition empty_id_xml : string := wrap_event
  "<System><EventID/><TimeCreated SystemTime='2024-05-01 10:25:00'/></System>".
Definition empty_id_root : Element :=
  element "Event" [] None
    [ element "System" [] None
        [ element "EventID" [] None [];
          element "TimeCreated" [("SystemTime", "2024-05-01 10:25:00")] None [] ] ].

(** Text that is not well-formed XML: the root element is not closed. *)
Definition truncated_xml : string := "<Event><System>".

Definition sample_documents : list (string * Element) :=
  [ (full_xml, full_root); (bare_xml, bare_root);
    (empty_fields_xml, empty_fields_root); (no_id_xml, no_id_root);
    (bad_id_xml, bad_id_root); (empty_id_xml, empty_id_root) ].

(** The XML parser on the sample records: each sample text with its tree.
    Text outside the table is taken as not well-formed. *)
Definition sample_fromstring (record_xml : string) : result Element :=
  match list_find (λ d, d.1 = record_xml) sample_documents with
  | Some (_, (_, root)) => ret root
  | None => raise ParseError
  end.

(** ** Sample inputs *)

Definition failed_login (time : string) (account : string) : Event :=
  {| ev_EventID := 4625; ev_Time := time;
     ev_Account := Some account; ev_Message := Some "" |}.

Definition four_failed_bob : list Event :=
  [failed_login "t1" "bob"; failed_login "t2" "bob";
   failed_login "t3" "bob"; failed_login "t4" "bob"].

Definition account_created_alice : Event :=
  {| ev_EventID := 4720; ev_Time := "t6";
     ev_Account := Some "alice"; ev_Message := Some "A user account was created." |}.

Definition logon_carol : Event :=
  {| ev_EventID := 4624; ev_Time := "t7";
     ev_Account := Some "carol"; ev_Message := Some "" |}.

(** [parse_event] on the sample records. *)
Abbreviation sample_parse := (parse_event sample_fromstring str_to_int).

(** ** Auxiliary notions of the statements *)

(** The number of failed-login events of an account in a stream. *)
Definition failed_count (account : option string) (events : list Event) : Z :=
  Z.of_nat (length (filter
    (λ e, ev_EventID e = FAILED_LOGIN_EVENT_ID ∧ ev_Account e = account) events)).

(** The alert type of each of the three unconditional rules. *)
Definition unconditional_rules : list (Z * string) :=
  [ (ACCOUNT_CREATED_EVENT_ID, "New User Account Created");
    (PRIV_ESCALATION_EVENT_ID, "Privilege Escalation");
    (SERVICE_STOP_EVENT_ID, "Service Stopped") ].

(** The cells of the row written for an alert. *)
Definition alert_row (a : Alert) : list string :=
  [al_Time a; default "" (al_Account a); al_Type a; default "" (al_Details a)].

Definition empty_world : World := {| files := ∅; console := [] |}.

(** What one event appends, given the count stored for its account before
    the event. *)
Definition new_alerts (e : Event) (count_before : Z) : list Alert :=
  if decide (ev_EventID e = FAILED_LOGIN_EVENT_ID) then
    if decide (FAILED_LOGIN_THRESHOLD ≤ count_before + 1) then
      [ {| al_Time := ev_Time e; al_Account := ev_Account e;
           al_Type := "Multiple Failed Logins";
           al_Details := Some (pretty (count_before + 1) +:+ " failed attempts") |} ]
    else []
  else
    match list_find (λ rule, rule.1 = ev_EventID e) unconditional_rules with
    | Some (_, (_, type)) =>
        [ {| al_Time := ev_Time e; al_Account := ev_Account e;
             al_Type := type; al_Details := ev_Message e |} ]
    | None => []
    end.

(** ** The console display *)

(** A [rich.table.Table] as the script uses it: the title, the columns
    (header and style) and the rows of cells.  Every row is added with as
    many cells as there are columns. *)
Record Table : Type := mkTable {
  tbl_title : string;
  tbl_columns : list (string * string);
  tbl_rows : list (list string);
}.

(** [Table(title=title)] *)
Definition new_Table (title : string) : Table :=
  {| tbl_title := title; tbl_columns := []; tbl_rows := [] |}.

(** [table.add_column(header, style=style)] *)
Definition add_column (header style : string) (t : Table) : Table :=
  {| tbl_title := tbl_title t;
     tbl_columns := tbl_columns t ++ [(header, style)];
     tbl_rows := tbl_rows t |}.

(** [table.add_row] on its cells: a cell that is [None] is a blank cell. *)
Definition add_row (cells : list (option string)) (t : Table) : Table :=
  {| tbl_title := tbl_title t;
     tbl_columns := tbl_columns t;
     tbl_rows := tbl_rows t ++ [map (default "") cells] |}.

(** What [console.print] is given: text with markup, or a table. *)
Inductive printed : Type :=
  | PrintMarkup (markup : string)
  | PrintTable (t : Table).

(** Whether the text has an opening square bracket. *)
Definition has_bracket (s : string) : bool :=
  existsb (λ c, bool_decide (c = "["%char)) (String.list_ascii_of_string s).

Section Display.

(** The markup parser of [rich] ([rich.markup.render]) on a text with a
    square bracket: [true] when it returns, [false] when it raises
    [MarkupError] (a closing tag that matches no open tag, for one). *)
Variable markup_ok : string → bool.

(** Rendering a text of a table: a text without a square bracket is taken as
    it is, any other goes through the markup parser. *)
Definition renders (text : string) : bool :=
  if has_bracket text then markup_ok text else true.

(** The title, the column headers and the cells all render. *)
Definition table_renders (t : Table) : bool :=
  renders (tbl_title t)
  && forallb (λ column, renders column.1) (tbl_columns t)
  && forallb (forallb renders) (tbl_rows t).

(** [console.print(table)]: the table is rendered, then written; nothing is
    written when rendering raises. *)
Definition print_table (t : Table) : result (list printed) :=
  if table_renders t then ret [PrintTable t] else raise MarkupError.

(** [display_alerts], as the sequence of things it prints, or the exception
    of [console.print(table)]. *)
Definition display_alerts (s : State) : result (list printed) :=
  match alerts s with
  | [] => ret [PrintMarkup "[green]No suspicious events detected![/green]"]
  | _ :: _ =>
      let table := new_Table "Suspicious Windows Events Detected" in
      let table := add_column "Time" "cyan" table in
      let table := add_column "Account" "magenta" table in
      let table := add_column "Type" "red" table in
      let table := add_column "Details" "yellow" table in
      let table :=
        fold_left (λ table alert, add_row (alert_values alert) table)
                  (alerts s) table in
      print_table table
  end.

End Display.

(** ** The script *)

(** The outcome of a run of the script: whether it ended with an exception,
    the module-level state, the files and what was printed. *)
Record Run : Type := mkRun {
  run_result : result ();
  run_state : State;
  run_files : gmap string csv_file;
  run_console : list printed;
}.

Section Main.

Variable fromstring : string → result Element.
Variable int_of_str : string → option Z.
Variable markup_ok : string → bool.

(** The [__main__] block, on the records of the log file [EVENT_LOG_FILE]
    and the files that exist.  The module-level state is the initial one when
    the block starts; an exception of [analyze_events] or of
    [display_alerts] ends the run.  The constant texts of the script are
    valid markup, and writing to the terminal and to the file is taken to
    succeed. *)
Definition main (records : list string) (fs : gmap string csv_file) : Run :=
  let out :=
    [PrintMarkup "[bold green]Starting Windows Event Log Analyzer...[/bold green]"] in
  match analyze_events fromstring int_of_str records initial_state with
  | (inl e, s) =>
      {| run_result := raise e; run_state := s;
         run_files := fs; run_console := out |}
  | (inr _, s) =>
      match display_alerts markup_ok s with
      | inl e =>
          {| run_result := raise e; run_state := s;
             run_files := fs; run_console := out |}
      | inr shown =>
          let out := out ++ shown in
          let w := save_alerts_csv "alerts_report.csv" s
                     {| files := fs; console := [] |} in
          {| run_result := ret (); run_state := s;
             run_files := files w;
             run_console :=
               out ++ map PrintMarkup (console w)
                   ++ [PrintMarkup "[bold green]Analysis Complete![/bold green]"] |}
      end
  end.

End Main.


(** The markup parser on sample texts: the texts of the table are rejected
    (each has a closing tag without an open tag); text outside the table is
    taken as accepted. *)
Definition sample_markup_ok (text : string) : bool :=
  bool_decide (text ∉ ["[/b] stopped"; "[/]"]).

Definition markup_xml : string := wrap_event
  ("<System><EventID>7036</EventID><TimeCreated SystemTime='t8'/></System>"
   +:+ "<RenderingInfo><Message>[/b] stopped</Message></RenderingInfo>").
Definition markup_root : Element :=
  element "Event" [] None
    [ element "System" [] None
        [ element "EventID" [] (Some "7036") [];
          element "TimeCreated" [("SystemTime", "t8")] None [] ];
      element "RenderingInfo" [] None
        [ element "Message" [] (Some "[/b] stopped") [] ] ].

(** No creation time element. *)
Definition no_time_xml : string := wrap_event
  "<System><EventID>4625</EventID></System>".
Definition no_time_root : Element :=
  element "Event" [] None
    [ element "System" [] None [ element "EventID" [] (Some "4625") [] ] ].

(** A creation time element without the [SystemTime] attribute. *)
Definition no_attr_xml : string := wrap_event
  "<System><EventID>4625</EventID><TimeCreated/></System>".
Definition no_attr_root : Element :=
  element "Event" [] None
    [ element "System" [] None
        [ element "EventID" [] (Some "4625") [];
          element "TimeCreated" [] None [] ] ].

(** The XML parser on these further sample records, as [sample_fromstring]
    is on the first ones. *)
Definition more_fromstring (record_xml : string) : result Element :=
  match list_find (λ d, d.1 = record_xml)
          [ (markup_xml, markup_root); (no_time_xml, no_time_root);
            (no_attr_xml, no_attr_root) ] with
  | Some (_, (_, root)) => ret root
  | None => raise ParseError
  end.

(** The children tagged [ns child] of the children of the root tagged
    [ns parent], in document order. *)
Definition grandchildren (root : Element) (parent child : string) : list Element :=
  flat_map (λ p, filter (λ c, tag c = ns child) (children p))
           (filter (λ p, tag p = ns parent) (children root)).

(** The record has no [TimeCreated] child of a [System] child of the root. *)
Definition lacks_TimeCreated (root : Element) : Prop :=
  Forall (λ sys, tag sys = ns "System" →
                 Forall (λ c, tag c ≠ ns "TimeCreated") (children sys))
         (children root).

#[global] Instance lacks_TimeCreated_dec root : Decision (lacks_TimeCreated root).
Proof. unfold lacks_TimeCreated. apply _. Defined.

(** The first and the last thing the script prints. *)
Definition banner_start : printed :=
  PrintMarkup "[bold green]Starting Windows Event Log Analyzer...[/bold green]".

(** ** Properties of the detection engine *)

Lemma dd_get_insert d k v k' :
  dd_get (<[k := v]> d) k' = if decide (k = k') then v else dd_get d k'.
Proof. unfold dd_get. rewrite lookup_insert. by case_decide. Qed.

Lemma dd_get_insert_eq d k v : dd_get (<[k := v]> d) k = v.
Proof. rewrite dd_get_insert. by rewrite decide_True. Qed.

Lemma analyze_stream_app events1 events2 s :
  analyze_stream (events1 ++ events2) s
  = analyze_stream events2 (analyze_stream events1 s).
Proof. apply fold_left_app. Qed.

Lemma analyze_stream_snoc events e s :
  analyze_stream (events ++ [e]) s = analyze_event e (analyze_stream events s).
Proof. by rewrite analyze_stream_app. Qed.

Ltac event_cases :=
  unfold analyze_event; repeat case_decide; simpl in *.

(** What one event appends, and the appended alerts carry its time and
    account. *)
Lemma analyze_event_appends e s :
  ∃ new, alerts (analyze_event e s) = alerts s ++ new
         ∧ (length new ≤ 1)%nat
         ∧ Forall (λ a, al_Time a = ev_Time e ∧ al_Account a = ev_Account e) new.
Proof.
  event_cases;
    first [ eexists [_]; split; [reflexivity |];
            split; [simpl; lia | by repeat constructor]
          | exists []; rewrite app_nil_r; split; [done |];
            split; [simpl; lia | constructor] ].
Qed.

Lemma failed_count_single k e :
  failed_count k [e]
  = if decide (ev_EventID e = FAILED_LOGIN_EVENT_ID)
    then (if decide (ev_Account e = k) then 1 else 0) else 0.
Proof.
  unfold failed_count. rewrite filter_cons, filter_nil.
  destruct (decide (ev_EventID e = FAILED_LOGIN_EVENT_ID)) as [Hid|Hid];
    destruct (decide (ev_Account e = k)) as [Hk|Hk];
    destruct (decide (_ ∧ _)) as [[??]|Hn]; simpl; try done;
    exfalso; eauto.
Qed.

Lemma dd_get_empty k : dd_get ∅ k = 0.
Proof. unfold dd_get. by rewrite lookup_empty. Qed.

Lemma analyze_event_counts e s k :
  dd_get (failed_logins (analyze_event e s)) k
  = dd_get (failed_logins s) k + failed_count k [e].
Proof.
  rewrite failed_count_single. unfold analyze_event.
  destruct (decide (ev_EventID e = FAILED_LOGIN_EVENT_ID)) as [Hid|Hid].
  - destruct (decide (FAILED_LOGIN_THRESHOLD ≤ _)); simpl;
      rewrite dd_get_insert; destruct (decide (ev_Account e = k)); subst; lia.
  - repeat destruct (decide (ev_EventID e = _)); simpl; lia.
Qed.

Lemma failed_count_app k events1 events2 :
  failed_count k (events1 ++ events2)
  = failed_count k events1 + failed_count k events2.
Proof. unfold failed_count. rewrite filter_app, length_app. lia. Qed.

Lemma failed_count_nonneg k events : 0 ≤ failed_count k events.
Proof. unfold failed_count. lia. Qed.

(** The counter of an account is what it was plus the number of failed
    logins of the account in the stream. *)
Lemma analyze_stream_counts events s k :
  dd_get (failed_logins (analyze_stream events s)) k
  = dd_get (failed_logins s) k + failed_count k events.
Proof.
  induction events as [|e events IH] using rev_ind.
  - unfold failed_count. simpl. lia.
  - rewrite analyze_stream_snoc, analyze_event_counts, IH, failed_count_app. lia.
Qed.

(** A stored count stays stored and does not decrease in one step. *)
Lemma analyze_event_monotone e s k v :
  failed_logins s !! k = Some v →
  ∃ v', failed_logins (analyze_event e s) !! k = Some v' ∧ v ≤ v'.
Proof.
  intros Hk.
  assert (Hins : ∃ v',
    <[ev_Account e := dd_get (failed_logins s) (ev_Account e) + 1]>
      (failed_logins s) !! k = Some v' ∧ v ≤ v').
  { rewrite lookup_insert. case_decide as Heq.
    - subst k. unfold dd_get. rewrite Hk. simpl. eexists. split; [done | lia].
    - exists v. split; [done | lia]. }
  event_cases; eauto with lia.
Qed.

Lemma analyze_stream_monotone events s k v :
  failed_logins s !! k = Some v →
  ∃ v', failed_logins (analyze_stream events s) !! k = Some v' ∧ v ≤ v'.
Proof.
  revert s v. induction events as [|e events IH]; intros s v Hk.
  - exists v. split; [done | lia].
  - destruct (analyze_event_monotone e s k v Hk) as (v1 & Hk1 & Hle1).
    destruct (IH _ _ Hk1) as (v2 & Hk2 & Hle2).
    exists v2. split; [done | lia].
Qed.

Lemma analyze_stream_prefix events s :
  alerts s `prefix_of` alerts (analyze_stream events s).
Proof.
  revert s. induction events as [|e events IH]; intros s; [done |].
  simpl. etrans; [| apply IH].
  destruct (analyze_event_appends e s) as (new & -> & _).
  by apply prefix_app_r.
Qed.

(** The state [analyze_events] leaves is the state after the stream of the
    events parsed before the loop ended. *)
Lemma analyze_events_stream fromstring int_of_str records s :
  ∃ events,
    (analyze_events fromstring int_of_str records s).2 = analyze_stream events s.
Proof.
  revert s. induction records as [|r records IH]; intros s; simpl.
  - by exists [].
  - destruct (parse_event _ _ r) as [e | event]; [by exists [] |].
    destruct (IH (analyze_event event s)) as [events ->].
    by exists (event :: events).
Qed.

(** *** The failed-login rule *)

(** C1. After any stream of events processed from the initial state, a
    failed-login event whose account has then been seen [count] times in
    failed-login events (this one included) stores [count] for the account,
    appends nothing when [count] is below the threshold, and otherwise
    appends exactly one "Multiple Failed Logins" alert with the event's time
    and account and the details "<count> failed attempts". *)
Theorem failed_login_rule (events : list Event) (e : Event) :
  ev_EventID e = FAILED_LOGIN_EVENT_ID →
  let s := analyze_stream events initial_state in
  let count := failed_count (ev_Account e) (events ++ [e]) in
  1 ≤ count
  ∧ failed_logins (analyze_event e s) = <[ev_Account e := count]> (failed_logins s)
  ∧ alerts (analyze_event e s) =
      alerts s ++
      (if decide (count < FAILED_LOGIN_THRESHOLD) then []
       else [ {| al_Time := ev_Time e;
                 al_Account := ev_Account e;
                 al_Type := "Multiple Failed Logins";
                 al_Details := Some (pretty count +:+ " failed attempts") |} ]).
Proof.
  intros Hid s count.
  assert (Hcount : dd_get (failed_logins s) (ev_Account e) + 1 = count).
  { subst s count. rewrite analyze_stream_counts, failed_count_app.
    rewrite failed_count_single, !decide_True by done.
    simpl. rewrite dd_get_empty. lia. }
  split.
  { pose proof (failed_count_nonneg (ev_Account e) events).
    subst s count. rewrite analyze_stream_counts in Hcount.
    simpl in Hcount. rewrite dd_get_empty in Hcount. lia. }
  split.
  { unfold analyze_event. rewrite decide_True by done.
    rewrite Hcount. by destruct (decide (FAILED_LOGIN_THRESHOLD ≤ _)). }
  unfold analyze_event. rewrite decide_True by done.
  rewrite dd_get_insert_eq, Hcount.
  destruct (decide (FAILED_LOGIN_THRESHOLD ≤ count));
    destruct (decide (count < FAILED_LOGIN_THRESHOLD)); try lia; simpl.
  - done.
  - by rewrite app_nil_r.
Qed.

Lemma failed_login_rule_witness :
  ev_EventID (failed_login "t5" "bob") = FAILED_LOGIN_EVENT_ID
  ∧ alerts (analyze_event (failed_login "t5" "bob")
              (analyze_stream four_failed_bob initial_state))
    = [ {| al_Time := "t5"; al_Account := Some "bob";
           al_Type := "Multiple Failed Logins";
           al_Details := Some "5 failed attempts" |} ].
Proof.
  split; [reflexivity |].
  pose proof (failed_login_rule four_failed_bob (failed_login "t5" "bob") eq_refl)
    as (_ & _ & H).
  vm_compute in H. vm_compute. exact H.
Defined.

(** The stream of the specification's end-to-end example: five failed logins
    of "bob", then an account creation for "alice". *)
Example end_to_end :
  alerts (analyze_stream
            (four_failed_bob ++ [failed_login "t5" "bob"; account_created_alice])
            initial_state)
  = [ {| al_Time := "t5"; al_Account := Some "bob";
         al_Type := "Multiple Failed Logins";
         al_Details := Some "5 failed attempts" |};
      {| al_Time := "t6"; al_Account := Some "alice";
         al_Type := "New User Account Created";
         al_Details := Some "A user account was created." |} ].
Proof. vm_compute. reflexivity. Qed.

Example below_threshold :
  alerts (analyze_stream four_failed_bob initial_state) = [].
Proof. vm_compute. reflexivity. Qed.

Example refires_past_threshold :
  map al_Details
    (alerts (analyze_stream
               (four_failed_bob ++ [failed_login "t5" "bob"; failed_login "t6" "bob"])
               initial_state))
  = [Some "5 failed attempts"; Some "6 failed attempts"].
Proof. vm_compute. reflexivity. Qed.

(** *** The other rules *)

(** C2. An event whose id is none of the four configured ids leaves the
    state as it is: no alert is appended and the counters are untouched. *)
Theorem unrecognized_event_ignored (e : Event) (s : State) :
  ev_EventID e ≠ FAILED_LOGIN_EVENT_ID →
  ev_EventID e ≠ ACCOUNT_CREATED_EVENT_ID →
  ev_EventID e ≠ PRIV_ESCALATION_EVENT_ID →
  ev_EventID e ≠ SERVICE_STOP_EVENT_ID →
  analyze_event e s = s
  ∧ alerts (analyze_event e s) = alerts s
  ∧ failed_logins (analyze_event e s) = failed_logins s.
Proof.
  intros H1 H2 H3 H4. unfold analyze_event.
  by rewrite !decide_False by done.
Qed.

Lemma unrecognized_event_ignored_witness :
  analyze_event logon_carol (analyze_stream four_failed_bob initial_state)
  = analyze_stream four_failed_bob initial_state.
Proof.
  apply (unrecognized_event_ignored logon_carol); vm_compute; discriminate.
Defined.

(** C5. An account-created, privilege-escalation or service-stop event
    appends, in every state, exactly one alert of the rule's type whose time
    and account are the event's and whose details are the event's message;
    the counters are untouched. *)
Theorem unconditional_rule_fires (e : Event) (s : State) (type : string) :
  (ev_EventID e, type) ∈ unconditional_rules →
  analyze_event e s =
    {| failed_logins := failed_logins s;
       alerts := alerts s ++
         [ {| al_Time := ev_Time e;
              al_Account := ev_Account e;
              al_Type := type;
              al_Details := ev_Message e |} ] |}.
Proof.
  unfold unconditional_rules. rewrite !elem_of_cons, elem_of_nil.
  intros [Heq | [Heq | [Heq | []]]]; injection Heq as Hid ->;
    unfold analyze_event; rewrite Hid; reflexivity.
Qed.

Lemma unconditional_rule_fires_witness :
  alerts (analyze_event account_created_alice
            (analyze_stream four_failed_bob initial_state))
  = [ {| al_Time := "t6"; al_Account := Some "alice";
         al_Type := "New User Account Created";
         al_Details := Some "A user account was created." |} ].
Proof.
  rewrite (unconditional_rule_fires account_created_alice _
             "New User Account Created").
  - vm_compute. reflexivity.
  - left.
Defined.

(** *** Invariants of the alert list and of the counters *)

(** The alerts of a stream are the alerts before it followed by what each
    event appended, event by event in stream order. *)
Lemma analyze_stream_alerts events s :
  ∃ news,
    Forall2 (λ e new,
      (length new ≤ 1)%nat
      ∧ Forall (λ a, al_Time a = ev_Time e ∧ al_Account a = ev_Account e) new)
      events news
    ∧ alerts (analyze_stream events s) = alerts s ++ concat news.
Proof.
  revert s. induction events as [|e events IH]; intros s.
  - exists []. split; [constructor | by rewrite app_nil_r].
  - destruct (analyze_event_appends e s) as (new & Hnew & Hlen & Hfrom).
    destruct (IH (analyze_event e s)) as (news & Hall & Hrest).
    exists (new :: news). split; [by constructor |].
    simpl. rewrite Hrest, Hnew. by rewrite app_assoc.
Qed.

(** C6. The alert list only grows at its end: one event leaves the alerts
    before it as a prefix, the alerts after a prefix of the stream are a
    prefix of the alerts after the whole stream, the final list is the
    initial one followed by the alerts of the first event, then those of the
    second, and so on, each carrying the time and account of its event, and
    the same prefix property holds for [analyze_events] on raw records
    whether or not the loop ends with an exception. *)
Theorem alerts_append_only :
  (∀ e s, alerts s `prefix_of` alerts (analyze_event e s))
  ∧ (∀ events1 events2 s,
       alerts (analyze_stream events1 s)
       `prefix_of` alerts (analyze_stream (events1 ++ events2) s))
  ∧ (∀ events s, ∃ news,
       Forall2 (λ e new,
         (length new ≤ 1)%nat
         ∧ Forall (λ a, al_Time a = ev_Time e ∧ al_Account a = ev_Account e) new)
         events news
       ∧ alerts (analyze_stream events s) = alerts s ++ concat news)
  ∧ (∀ fromstring int_of_str records s,
       alerts s `prefix_of` alerts (analyze_events fromstring int_of_str records s).2).
Proof.
  split; [| split; [| split]].
  - intros e s. apply (analyze_stream_prefix [e]).
  - intros events1 events2 s. rewrite analyze_stream_app.
    apply analyze_stream_prefix.
  - apply analyze_stream_alerts.
  - intros fromstring int_of_str records s.
    destruct (analyze_events_stream fromstring int_of_str records s) as [events ->].
    apply analyze_stream_prefix.
Qed.

(** C7. One event appends at most one alert, and what it appends and the
    counters it leaves are determined by the event and the counters before
    it: two states with the same counters get the same new alerts and the
    same new counters, whatever their alert lists hold. *)
Theorem one_event_at_most_one_alert (e : Event) :
  (∀ s, ∃ new,
     alerts (analyze_event e s) = alerts s ++ new ∧ (length new ≤ 1)%nat)
  ∧ (∀ s1 s2,
       failed_logins s1 = failed_logins s2 →
       failed_logins (analyze_event e s1) = failed_logins (analyze_event e s2)
       ∧ drop (length (alerts s1)) (alerts (analyze_event e s1))
         = drop (length (alerts s2)) (alerts (analyze_event e s2))).
Proof.
  split.
  - intros s. destruct (analyze_event_appends e s) as (new & Hnew & Hlen & _).
    by exists new.
  - intros [fl1 al1] [fl2 al2]. simpl. intros ->.
    unfold analyze_event; simpl.
    repeat destruct (decide _); simpl;
      by rewrite ?drop_app_length, ?drop_all.
Qed.

Lemma one_event_at_most_one_alert_witness :
  let e := failed_login "t5" "bob" in
  let s1 := analyze_stream four_failed_bob initial_state in
  let s2 := analyze_event account_created_alice s1 in
  failed_logins s1 = failed_logins s2
  ∧ drop (length (alerts s1)) (alerts (analyze_event e s1))
    = drop (length (alerts s2)) (alerts (analyze_event e s2)).
Proof.
  intros e s1 s2.
  assert (H : failed_logins s1 = failed_logins s2) by reflexivity.
  split; [exact H |].
  exact (proj2 (proj2 (one_event_at_most_one_alert e) s1 s2 H)).
Defined.

(** C8. The counters start empty, only a failed-login event changes them,
    and a stored count stays stored and never decreases, over any stream of
    events and over any run of [analyze_events] on raw records. *)
Theorem failed_logins_frame :
  failed_logins initial_state = ∅
  ∧ (∀ e s, ev_EventID e ≠ FAILED_LOGIN_EVENT_ID →
       failed_logins (analyze_event e s) = failed_logins s)
  ∧ (∀ events s k v,
       failed_logins s !! k = Some v →
       ∃ v', failed_logins (analyze_stream events s) !! k = Some v' ∧ v ≤ v')
  ∧ (∀ fromstring int_of_str records s k v,
       failed_logins s !! k = Some v →
       ∃ v', failed_logins (analyze_events fromstring int_of_str records s).2 !! k
             = Some v' ∧ v ≤ v').
Proof.
  split; [done |]. split; [| split].
  - intros e s Hid. unfold analyze_event. rewrite decide_False by done.
    by repeat destruct (decide _).
  - intros events s k v. apply analyze_stream_monotone.
  - intros fromstring int_of_str records s k v Hk.
    destruct (analyze_events_stream fromstring int_of_str records s) as [events ->].
    by apply analyze_stream_monotone.
Qed.

Lemma failed_logins_frame_witness :
  let s := analyze_stream four_failed_bob initial_state in
  failed_logins s !! Some "bob" = Some 4
  ∧ ∃ v', failed_logins (analyze_stream [failed_login "t5" "bob"] s) !! Some "bob"
          = Some v' ∧ 4 ≤ v'.
Proof.
  intros s.
  assert (H : failed_logins s !! Some "bob" = Some 4) by (vm_compute; reflexivity).
  split; [exact H |].
  exact (proj1 (proj2 (proj2 failed_logins_frame)) _ s _ _ H).
Defined.

(** ** Properties of the record parser *)

Example str_to_int_4625 : str_to_int "4625" = Some 4625.
Proof. vm_compute. reflexivity. Qed.
Example str_to_int_signed : str_to_int " -1_000 " = Some (-1000).
Proof. vm_compute. reflexivity. Qed.
Example str_to_int_abc : str_to_int "abc" = None.
Proof. vm_compute. reflexivity. Qed.
Example str_to_int_empty : str_to_int "" = None.
Proof. vm_compute. reflexivity. Qed.
Example str_to_int_double_underscore : str_to_int "1__0" = None.
Proof. vm_compute. reflexivity. Qed.

(** Induction on elements with the hypothesis for every child. *)
Lemma Element_nested_ind (P : Element → Prop) :
  (∀ t a x cs, Forall P cs → P (mkElement t a x cs)) → ∀ e, P e.
Proof.
  intros Hstep. fix IH 1. intros [t a x cs]. apply Hstep.
  induction cs as [|c cs IHcs]; constructor; [apply IH | exact IHcs].
Qed.

Lemma filter_flat_map {A B} (P : B → Prop) `{∀ x, Decision (P x)}
    (f : A → list B) (l : list A) :
  filter P (flat_map f l) = flat_map (λ x, filter P (f x)) l.
Proof.
  induction l as [|x l IH]; simpl; [done |]. by rewrite filter_app, IH.
Qed.

Lemma flat_map_Forall_ext {A B} (f g : A → list B) (l : list A) :
  Forall (λ x, f x = g x) l → flat_map f l = flat_map g l.
Proof. induction 1 as [|x l Hx _ IH]; simpl; [done |]. by rewrite Hx, IH. Qed.

(** [iter] with a tag keeps, of the whole subtree, the elements that carry
    the tag. *)
Lemma iter_filter (t : string) (e : Element) :
  iter t e = filter (λ x, tag x = t) (iter_all e).
Proof.
  induction e as [t' a x cs IH] using Element_nested_ind.
  simpl. rewrite filter_cons, filter_flat_map. simpl.
  rewrite (flat_map_Forall_ext _ _ _ IH).
  by destruct (decide (t' = t)).
Qed.

Lemma select_Descendant (t : string) (root : Element) :
  select (Descendant t) [root] = filter (λ x, tag x = t) (descendants root).
Proof.
  unfold descendants. simpl. rewrite app_nil_r, filter_flat_map.
  apply flat_map_Forall_ext, Forall_forall. intros c _. apply iter_filter.
Qed.

Lemma head_filter_None {A} (P : A → Prop) `{∀ x, Decision (P x)} (l : list A) :
  Forall (λ x, ¬ P x) l → head (filter P l) = None.
Proof.
  induction 1 as [|x l Hx _ IH]; [done |].
  by rewrite filter_cons, decide_False.
Qed.

Lemma flat_map_nil {A B} (f : A → list B) (l : list A) :
  Forall (λ x, f x = []) l → flat_map f l = [].
Proof. induction 1 as [|x l Hx _ IH]; simpl; [done |]. by rewrite Hx, IH. Qed.

Lemma filter_nil_Forall {A} (P : A → Prop) `{∀ x, Decision (P x)} (l : list A) :
  Forall (λ x, ¬ P x) l → filter P l = [].
Proof.
  induction 1 as [|x l Hx _ IH]; [done |].
  by rewrite filter_cons, decide_False.
Qed.

(** What the three searches for optional and mandatory fields return on a
    record that lacks the field. *)
Lemma find_TargetUserName_lacks (root : Element) :
  lacks_TargetUserName root → find root path_TargetUserName = None.
Proof.
  intros Hlacks. unfold find, iterfind, path_TargetUserName.
  cbn [fold_left]. change (select Self [root]) with [root].
  rewrite select_Descendant. cbn [select].
  rewrite list_filter_filter. apply head_filter_None.
  eapply Forall_impl; [exact Hlacks |].
  intros e Hn [Hattr Htag]. apply Hn. by split.
Qed.

Lemma find_Message_lacks (root : Element) :
  lacks_Message root → find root path_Message = None.
Proof.
  intros Hlacks. unfold find, iterfind, path_Message.
  cbn [fold_left]. change (select Self [root]) with [root].
  rewrite select_Descendant. cbn [select].
  rewrite flat_map_nil; [done |].
  apply Forall_forall. intros ri [Htag Hin]%list_elem_of_filter.
  apply filter_nil_Forall.
  unfold lacks_Message in Hlacks.
  rewrite Forall_forall in Hlacks. by apply Hlacks.
Qed.

Lemma find_EventID_lacks (root : Element) :
  lacks_EventID root → find root path_EventID = None.
Proof.
  intros Hlacks. unfold find, iterfind, path_EventID.
  cbn [fold_left select flat_map]. rewrite app_nil_r.
  rewrite flat_map_nil; [done |].
  apply Forall_forall. intros sys [Htag Hin]%list_elem_of_filter.
  apply filter_nil_Forall.
  unfold lacks_EventID in Hlacks.
  rewrite Forall_forall in Hlacks. by apply Hlacks.
Qed.

Section ParserFacts.

Variable fromstring : string → result Element.
Variable int_of_str : string → option Z.

Abbreviation parse := (parse_event fromstring int_of_str).

(** The fields of a parsed event, read off the tree. *)
Lemma parse_event_inr (record_xml : string) (ev : Event) :
  parse record_xml = inr ev →
  ∃ root e1 s e2,
    fromstring record_xml = inr root
    ∧ find root path_EventID = Some e1 ∧ text e1 = Some s
    ∧ int_of_str s = Some (ev_EventID ev)
    ∧ find root path_TimeCreated = Some e2
    ∧ attrib e2 !! "SystemTime" = Some (ev_Time ev)
    ∧ ev_Account ev = match find root path_TargetUserName with
                      | Some e => text e
                      | None => Some "N/A"
                      end
    ∧ ev_Message ev = match find root path_Message with
                      | Some e => text e
                      | None => Some ""
                      end.
Proof.
  unfold parse_event.
  destruct (fromstring record_xml) as [?|root] eqn:Hroot; simpl; [done |].
  destruct (find root path_EventID) as [e1|] eqn:Hid; simpl; [| done].
  unfold int. destruct (text e1) as [s|] eqn:Htext; simpl; [| done].
  destruct (int_of_str s) as [n|] eqn:Hint; simpl; [| done].
  destruct (find root path_TimeCreated) as [e2|] eqn:Htime; simpl; [| done].
  unfold getitem.
  destruct (attrib e2 !! "SystemTime") as [t|] eqn:Hattr; simpl; [| done].
  intros [= <-]. by exists root, e1, s, e2.
Qed.

(** A record whose mandatory fields are there parses. *)
Lemma parse_event_mandatory (record_xml : string) (root e1 e2 : Element)
    (s t : string) (n : Z) :
  fromstring record_xml = inr root →
  find root path_EventID = Some e1 → text e1 = Some s → int_of_str s = Some n →
  find root path_TimeCreated = Some e2 → attrib e2 !! "SystemTime" = Some t →
  parse record_xml =
    inr {| ev_EventID := n;
           ev_Time := t;
           ev_Account := match find root path_TargetUserName with
                         | Some e => text e
                         | None => Some "N/A"
                         end;
           ev_Message := match find root path_Message with
                         | Some e => text e
                         | None => Some ""
                         end |}.
Proof.
  intros Hroot Hid Htext Hint Htime Hattr. unfold parse_event.
  rewrite Hroot. simpl. rewrite Hid. simpl. rewrite Htext. simpl.
  rewrite Hint. simpl. rewrite Htime. simpl.
  unfold getitem. by rewrite Hattr.
Qed.

(** C3. On a record that parses to a tree, a parsed event has the account
    "N/A" when the tree has no [TargetUserName] data element and the message
    "" when it has no rendered message; and a record whose event id and
    creation time are there does parse, whether or not the optional fields
    are there, to an event with these defaults for the fields it lacks. *)
Theorem optional_fields_default (record_xml : string) (root : Element) :
  fromstring record_xml = inr root →
  (∀ ev, parse record_xml = inr ev →
         lacks_TargetUserName root → ev_Account ev = Some "N/A")
  ∧ (∀ ev, parse record_xml = inr ev →
           lacks_Message root → ev_Message ev = Some "")
  ∧ (∀ e1 s n e2 t,
       find root path_EventID = Some e1 → text e1 = Some s →
       int_of_str s = Some n →
       find root path_TimeCreated = Some e2 →
       attrib e2 !! "SystemTime" = Some t →
       ∃ ev, parse record_xml = inr ev
             ∧ ev_EventID ev = n ∧ ev_Time ev = t
             ∧ (lacks_TargetUserName root → ev_Account ev = Some "N/A")
             ∧ (lacks_Message root → ev_Message ev = Some "")).
Proof.
  intros Hroot. split; [| split].
  - intros ev Hev Hlacks.
    destruct (parse_event_inr _ _ Hev) as (root' & e1 & s & e2 & Hroot' & H).
    rewrite Hroot in Hroot'. injection Hroot' as <-.
    destruct H as (_ & _ & _ & _ & _ & -> & _).
    by rewrite find_TargetUserName_lacks.
  - intros ev Hev Hlacks.
    destruct (parse_event_inr _ _ Hev) as (root' & e1 & s & e2 & Hroot' & H).
    rewrite Hroot in Hroot'. injection Hroot' as <-.
    destruct H as (_ & _ & _ & _ & _ & _ & ->).
    by rewrite find_Message_lacks.
  - intros e1 s n e2 t Hid Htext Hint Htime Hattr.
    eexists. split; [by eapply parse_event_mandatory |].
    simpl. repeat split.
    + intros Hlacks. by rewrite find_TargetUserName_lacks.
    + intros Hlacks. by rewrite find_Message_lacks.
Qed.

(** C4, with the exceptions the code raises.  [parse_event] returns no
    event, it raises: the parser's exception ([ParseError]) when the text of
    the record is not well-formed, [AttributeError] when the tree has no
    event id element, [TypeError] when the event id element has no text, and
    [ValueError] when its text is not a number. *)
Theorem malformed_record_raises (record_xml : string) :
  (∀ e, fromstring record_xml = inl e → parse record_xml = inl e)
  ∧ (∀ root, fromstring record_xml = inr root →
             lacks_EventID root → parse record_xml = inl AttributeError)
  ∧ (∀ root e1, fromstring record_xml = inr root →
                find root path_EventID = Some e1 → text e1 = None →
                parse record_xml = inl TypeError)
  ∧ (∀ root e1 s, fromstring record_xml = inr root →
                  find root path_EventID = Some e1 → text e1 = Some s →
                  int_of_str s = None →
                  parse record_xml = inl ValueError).
Proof.
  unfold parse_event. split; [| split; [| split]].
  - by intros e ->.
  - intros root -> Hlacks. simpl. by rewrite find_EventID_lacks.
  - intros root e1 -> Hid Htext. simpl. rewrite Hid. simpl. by rewrite Htext.
  - intros root e1 s -> Hid Htext Hint. simpl. rewrite Hid. simpl.
    rewrite Htext. simpl. by rewrite Hint.
Qed.

(** C10. When the search for the [TargetUserName] data element, or for the
    rendered message element, finds an element, the parsed event carries the
    element's text as it is; for an element without text that is [None], not
    the default. *)
Theorem empty_optional_element_gives_None (record_xml : string)
    (root : Element) (ev : Event) :
  fromstring record_xml = inr root →
  parse record_xml = inr ev →
  (∀ e, find root path_TargetUserName = Some e →
        ev_Account ev = text e ∧ (text e = None → ev_Account ev = None))
  ∧ (∀ e, find root path_Message = Some e →
          ev_Message ev = text e ∧ (text e = None → ev_Message ev = None)).
Proof.
  intros Hroot Hev.
  destruct (parse_event_inr _ _ Hev) as (root' & e1 & s & e2 & Hroot' & H).
  rewrite Hroot in Hroot'. injection Hroot' as <-.
  destruct H as (_ & _ & _ & _ & _ & Hacc & Hmsg).
  split; intros e He; [rewrite He in Hacc | rewrite He in Hmsg];
    (split; [done | congruence]).
Qed.

End ParserFacts.

Lemma optional_fields_default_witness :
  lacks_TargetUserName bare_root ∧ lacks_Message bare_root
  ∧ ∃ ev, sample_parse bare_xml = inr ev
          ∧ ev_EventID ev = 7036 ∧ ev_Time ev = "2024-05-01 10:05:00"
          ∧ ev_Account ev = Some "N/A" ∧ ev_Message ev = Some "".
Proof.
  assert (Hacc : lacks_TargetUserName bare_root)
    by (apply (bool_decide_unpack _); vm_compute; exact I).
  assert (Hmsg : lacks_Message bare_root)
    by (apply (bool_decide_unpack _); vm_compute; exact I).
  split; [exact Hacc |]. split; [exact Hmsg |].
  destruct (proj2 (proj2 (optional_fields_default sample_fromstring str_to_int
                            bare_xml bare_root eq_refl))
              (element "EventID" [] (Some "7036") []) "7036" 7036
              (element "TimeCreated" [("SystemTime", "2024-05-01 10:05:00")] None [])
              "2024-05-01 10:05:00")
    as (ev & Hev & Hid & Htime & Ha & Hm);
    [vm_compute; reflexivity ..|].
  exists ev. repeat split; [exact Hev | exact Hid | exact Htime | exact (Ha Hacc) | exact (Hm Hmsg)].
Defined.

Lemma malformed_record_raises_witness :
  sample_parse truncated_xml = inl ParseError
  ∧ sample_parse no_id_xml = inl AttributeError
  ∧ sample_parse empty_id_xml = inl TypeError
  ∧ sample_parse bad_id_xml = inl ValueError.
Proof.
  split; [| split; [| split]].
  - apply (proj1 (malformed_record_raises sample_fromstring str_to_int truncated_xml)).
    vm_compute. reflexivity.
  - apply (proj1 (proj2 (malformed_record_raises sample_fromstring str_to_int
                           no_id_xml)) no_id_root).
    + vm_compute. reflexivity.
    + apply (bool_decide_unpack _). vm_compute. exact I.
  - apply (proj1 (proj2 (proj2 (malformed_record_raises sample_fromstring str_to_int
                                  empty_id_xml)))
             empty_id_root (element "EventID" [] None []));
      vm_compute; reflexivity.
  - apply (proj2 (proj2 (proj2 (malformed_record_raises sample_fromstring str_to_int
                                  bad_id_xml)))
             bad_id_root (element "EventID" [] (Some "abc") []) "abc");
      vm_compute; reflexivity.
Defined.

(** A record without an event id, and one whose event id is not a number,
    make [parse_event] raise, but not [ParseError]. *)
Lemma missing_event_id_not_ParseError :
  sample_fromstring no_id_xml = inr no_id_root
  ∧ lacks_EventID no_id_root
  ∧ sample_parse no_id_xml ≠ inl ParseError
  ∧ sample_fromstring bad_id_xml = inr bad_id_root
  ∧ sample_parse bad_id_xml ≠ inl ParseError.
Proof.
  split; [vm_compute; reflexivity |].
  split; [apply (bool_decide_unpack _); vm_compute; exact I |].
  split; [vm_compute; discriminate |].
  split; [vm_compute; reflexivity |].
  vm_compute; discriminate.
Qed.

Lemma empty_optional_element_gives_None_witness :
  ∃ ev, sample_parse empty_fields_xml = inr ev
        ∧ ev_Account ev = None ∧ ev_Message ev = None.
Proof.
  eexists. split; [vm_compute; reflexivity |].
  pose proof (empty_optional_element_gives_None sample_fromstring str_to_int
                empty_fields_xml empty_fields_root _ eq_refl eq_refl) as [Ha Hm].
  split.
  - apply (Ha (element "Data" [("Name", "TargetUserName")] None []));
      vm_compute; reflexivity.
  - apply (Hm (element "Message" [] None [])); vm_compute; reflexivity.
Defined.

Example parse_full_record :
  sample_parse full_xml
  = inr {| ev_EventID := 4625; ev_Time := "2024-05-01 10:00:00";
           ev_Account := Some "bob";
           ev_Message := Some "An account failed to log on." |}.
Proof. vm_compute. reflexivity. Qed.

(** ** Properties of the CSV export *)

(** The header the export writes is the list of the keys of the alert dicts,
    which starts with [Time]. *)
Lemma export_header_not_Timestamp :
  let s := analyze_stream [account_created_alice] initial_state in
  let w := save_alerts_csv "alerts_report.csv" s empty_world in
  alerts s ≠ []
  ∧ ¬ ∃ table, files w !! "alerts_report.csv"
               = Some (["Timestamp"; "Account"; "Type"; "Details"] :: table).
Proof.
  intros s w. split; [by vm_compute |].
  intros [table H]. vm_compute in H. discriminate H.
Qed.

(** C9, with the header the code writes. With a non-empty alert list the export writes, under the
    file name, the header row [Time,Account,Type,Details] followed by one row
    per alert in list order, and leaves every other file alone; with an empty
    alert list it writes and prints nothing. *)
Theorem export_writes_alert_table (filename : string) (s : State) (w : World) :
  (alerts s ≠ [] →
     files (save_alerts_csv filename s w)
     = <[filename := ["Time"; "Account"; "Type"; "Details"]
                     :: map alert_row (alerts s)]> (files w))
  ∧ (alerts s = [] → save_alerts_csv filename s w = w).
Proof.
  unfold save_alerts_csv. split.
  - destruct (alerts s) as [|a al] eqn:Hal; [done |]. intros _.
    simpl. unfold to_csv, DataFrame_of_records. simpl.
    by rewrite map_map.
  - by intros ->.
Qed.

Lemma export_writes_alert_table_witness :
  let s := analyze_stream [account_created_alice] initial_state in
  files (save_alerts_csv "alerts_report.csv" s empty_world) !! "alerts_report.csv"
  = Some [ ["Time"; "Account"; "Type"; "Details"];
           ["t6"; "alice"; "New User Account Created";
            "A user account was created."] ].
Proof.
  intros s.
  rewrite (proj1 (export_writes_alert_table "alerts_report.csv" s empty_world));
    [| by vm_compute].
  vm_compute. reflexivity.
Defined.

Example export_nothing_when_empty :
  save_alerts_csv "alerts_report.csv" initial_state empty_world = empty_world.
Proof. reflexivity. Qed.

(** ** Further properties of the detection engine *)

(** One step, written with what it appends and with the counters it leaves. *)
Lemma analyze_event_unfold (e : Event) (s : State) :
  analyze_event e s =
    {| failed_logins :=
         if decide (ev_EventID e = FAILED_LOGIN_EVENT_ID)
         then <[ev_Account e := dd_get (failed_logins s) (ev_Account e) + 1]>
                (failed_logins s)
         else failed_logins s;
       alerts := alerts s
                 ++ new_alerts e (dd_get (failed_logins s) (ev_Account e)) |}.
Proof.
  unfold analyze_event, new_alerts.
  destruct (decide (ev_EventID e = FAILED_LOGIN_EVENT_ID)) as [Hid|Hid].
  - rewrite dd_get_insert_eq.
    destruct (decide (FAILED_LOGIN_THRESHOLD ≤ _)); [done |].
    by rewrite app_nil_r.
  - unfold unconditional_rules. cbn [list_find fst].
    destruct (decide (ev_EventID e = ACCOUNT_CREATED_EVENT_ID)) as [->|H1];
      [done |].
    rewrite (decide_False (P := ACCOUNT_CREATED_EVENT_ID = _)) by done.
    destruct (decide (ev_EventID e = PRIV_ESCALATION_EVENT_ID)) as [->|H2];
      [done |].
    rewrite (decide_False (P := PRIV_ESCALATION_EVENT_ID = _)) by done.
    destruct (decide (ev_EventID e = SERVICE_STOP_EVENT_ID)) as [->|H3];
      [done |].
    rewrite (decide_False (P := SERVICE_STOP_EVENT_ID = _)) by done.
    simpl. rewrite app_nil_r. by destruct s.
Qed.

Lemma initial_counts events k :
  dd_get (failed_logins (analyze_stream events initial_state)) k
  = failed_count k events.
Proof. rewrite analyze_stream_counts. simpl. rewrite dd_get_empty. lia. Qed.

(** The counter map after a stream is exactly the table of the numbers of
    failed logins: an account is a key when it had a failed login, and its
    value is then the number of its failed logins. *)
Theorem counters_are_failed_counts (events : list Event) (k : option string) :
  failed_logins (analyze_stream events initial_state) !! k
  = if decide (failed_count k events = 0) then None
    else Some (failed_count k events).
Proof.
  induction events as [|e events IH] using rev_ind; [done |].
  rewrite analyze_stream_snoc, analyze_event_unfold. cbn [failed_logins].
  rewrite failed_count_app, failed_count_single.
  pose proof (failed_count_nonneg k events) as Hk.
  destruct (decide (ev_EventID e = FAILED_LOGIN_EVENT_ID)) as [Hid|Hid].
  - rewrite lookup_insert.
    destruct (decide (ev_Account e = k)) as [->|Hne].
    + rewrite initial_counts, decide_False by lia. done.
    + rewrite IH. by rewrite Z.add_0_r.
  - rewrite IH. by rewrite Z.add_0_r.
Qed.

Lemma failed_count_Permutation k events1 events2 :
  events1 ≡ₚ events2 → failed_count k events1 = failed_count k events2.
Proof. intros Hp. unfold failed_count. by rewrite Hp. Qed.

(** The counters do not depend on the order of the events. *)
Theorem counters_order_independent (events1 events2 : list Event) :
  events1 ≡ₚ events2 →
  failed_logins (analyze_stream events1 initial_state)
  = failed_logins (analyze_stream events2 initial_state).
Proof.
  intros Hp. apply map_eq. intros k.
  rewrite !counters_are_failed_counts.
  by rewrite (failed_count_Permutation k _ _ Hp).
Qed.

Lemma counters_order_independent_witness :
  failed_logins (analyze_stream [failed_login "t1" "bob"; account_created_alice;
                                 failed_login "t2" "eve"] initial_state)
  = failed_logins (analyze_stream [failed_login "t2" "eve"; failed_login "t1" "bob";
                                   account_created_alice] initial_state).
Proof.
  apply counters_order_independent.
  apply (Permutation_app_comm [_; _] [_]).
Defined.

Lemma new_alerts_account e c :
  Forall (λ a, al_Time a = ev_Time e ∧ al_Account a = ev_Account e)
         (new_alerts e c).
Proof.
  unfold new_alerts.
  destruct (decide _); [destruct (decide _); by repeat constructor |].
  destruct (list_find (λ rule, rule.1 = ev_EventID e) unconditional_rules)
    as [[? [? ?]]|]; by repeat constructor.
Qed.

Lemma new_alerts_length e c : (length (new_alerts e c) ≤ 1)%nat.
Proof.
  unfold new_alerts.
  destruct (decide _); [destruct (decide _); simpl; lia |].
  destruct (list_find (λ rule, rule.1 = ev_EventID e) unconditional_rules)
    as [[? [? ?]]|]; simpl; lia.
Qed.

Lemma failed_count_filter_account k events :
  failed_count k (filter (λ e, ev_Account e = k) events) = failed_count k events.
Proof.
  unfold failed_count. rewrite list_filter_filter. f_equal. f_equal.
  apply list_filter_iff. intros e. tauto.
Qed.

(** The alerts of an account are those of the stream restricted to the
    events of the account: the events of other accounts change nothing
    about them. *)
Theorem alerts_per_account_isolated (events : list Event) (k : option string) :
  filter (λ a, al_Account a = k) (alerts (analyze_stream events initial_state))
  = alerts (analyze_stream (filter (λ e, ev_Account e = k) events) initial_state).
Proof.
  induction events as [|e events IH] using rev_ind; [done |].
  rewrite filter_app, !analyze_stream_snoc, analyze_event_unfold.
  cbn [alerts]. rewrite filter_app, IH, initial_counts.
  pose proof (new_alerts_account e (failed_count (ev_Account e) events)) as Hacc.
  rewrite filter_cons, filter_nil.
  destruct (decide (ev_Account e = k)) as [<-|Hne].
  - rewrite analyze_stream_snoc, analyze_event_unfold. cbn [alerts].
    rewrite initial_counts, failed_count_filter_account. f_equal.
    induction Hacc as [|a l [_ Ha] _ IHl]; [done |].
    by rewrite filter_cons, decide_True, IHl.
  - rewrite app_nil_r.
    assert (Hnil : filter (λ a, al_Account a = k)
                     (new_alerts e (failed_count (ev_Account e) events)) = []).
    { induction Hacc as [|a l [_ Ha] _ IHl]; [done |].
      rewrite filter_cons, decide_False, IHl; [done | congruence]. }
    by rewrite Hnil, app_nil_r.
Qed.

(** A stream never has more alerts than events. *)
Theorem alerts_bounded_by_events (events : list Event) (s : State) :
  (length (alerts (analyze_stream events s))
   ≤ length (alerts s) + length events)%nat.
Proof.
  revert s. induction events as [|e events IH]; intros s; simpl; [lia |].
  etrans; [apply IH |].
  rewrite analyze_event_unfold. cbn [alerts]. rewrite length_app.
  pose proof (new_alerts_length e (dd_get (failed_logins s) (ev_Account e))).
  lia.
Qed.

Lemma new_alerts_unconditional e c type :
  (ev_EventID e, type) ∈ unconditional_rules →
  new_alerts e c =
    [ {| al_Time := ev_Time e; al_Account := ev_Account e;
         al_Type := type; al_Details := ev_Message e |} ].
Proof.
  unfold unconditional_rules. rewrite !elem_of_cons, elem_of_nil.
  intros [Heq | [Heq | [Heq | []]]]; injection Heq as Hid ->;
    unfold new_alerts, unconditional_rules; rewrite Hid; reflexivity.
Qed.

(** What [new_alerts] can be: nothing, the failed-login alert when the new
    count reaches the threshold, or the alert of an unconditional rule. *)
Lemma new_alerts_cases e c :
  new_alerts e c = []
  ∨ (ev_EventID e = FAILED_LOGIN_EVENT_ID ∧ FAILED_LOGIN_THRESHOLD ≤ c + 1
     ∧ new_alerts e c =
         [ {| al_Time := ev_Time e; al_Account := ev_Account e;
              al_Type := "Multiple Failed Logins";
              al_Details := Some (pretty (c + 1) +:+ " failed attempts") |} ])
  ∨ (ev_EventID e ≠ FAILED_LOGIN_EVENT_ID
     ∧ ∃ type, (ev_EventID e, type) ∈ unconditional_rules
        ∧ new_alerts e c =
            [ {| al_Time := ev_Time e; al_Account := ev_Account e;
                 al_Type := type; al_Details := ev_Message e |} ]).
Proof.
  unfold new_alerts.
  destruct (decide (ev_EventID e = FAILED_LOGIN_EVENT_ID)) as [Hid|Hid].
  - destruct (decide (FAILED_LOGIN_THRESHOLD ≤ c + 1)); [| by left].
    right; left. done.
  - destruct (list_find (λ rule, rule.1 = ev_EventID e) unconditional_rules)
      as [[i [id type]]|] eqn:Hfind; [| by left].
    right; right. split; [done |]. exists type.
    apply list_find_Some in Hfind as (Hi & Heq & _). simpl in Heq. subst id.
    split; [| done]. by eapply list_elem_of_lookup_2.
Qed.

Lemma unconditional_rules_types id type :
  (id, type) ∈ unconditional_rules →
  id ≠ FAILED_LOGIN_EVENT_ID ∧ type ≠ "Multiple Failed Logins".
Proof.
  unfold unconditional_rules. rewrite !elem_of_cons, elem_of_nil.
  intros [Heq | [Heq | [Heq | []]]]; injection Heq as -> ->; by split.
Qed.

(** An account with [n] failed logins in the stream has [n - 4] failed-login
    alerts when [n] is at least 5, and none otherwise: the alert is repeated
    for every failed login from the fifth on. *)
Theorem failed_login_alert_count (events : list Event) (k : option string) :
  length (filter (λ a, al_Type a = "Multiple Failed Logins" ∧ al_Account a = k)
            (alerts (analyze_stream events initial_state)))
  = Z.to_nat (failed_count k events - (FAILED_LOGIN_THRESHOLD - 1)).
Proof.
  induction events as [|e events IH] using rev_ind; [done |].
  rewrite analyze_stream_snoc, analyze_event_unfold. cbn [alerts].
  rewrite filter_app, length_app, IH, initial_counts.
  rewrite failed_count_app, failed_count_single.
  pose proof (failed_count_nonneg k events) as Hk.
  unfold FAILED_LOGIN_THRESHOLD in *.
  destruct (new_alerts_cases e (failed_count (ev_Account e) events))
    as [Hnew | [(Hid & Hge & ->) | (Hid & type & Hrule & ->)]].
  - rewrite Hnew. simpl.
    destruct (decide (ev_EventID e = FAILED_LOGIN_EVENT_ID)) as [Hid|Hid];
      [| lia].
    destruct (decide (ev_Account e = k)) as [<-|Hne]; [| lia].
    unfold new_alerts in Hnew. rewrite decide_True in Hnew by done.
    unfold FAILED_LOGIN_THRESHOLD in Hnew.
    destruct (decide (5 ≤ failed_count (ev_Account e) events + 1));
      [done | lia].
  - rewrite decide_True by done. rewrite filter_cons, filter_nil. simpl.
    unfold FAILED_LOGIN_THRESHOLD in Hge.
    destruct (decide (ev_Account e = k)) as [<-|Hne].
    + rewrite decide_True by done. simpl. lia.
    + rewrite decide_False by (intros [_ ?]; done). simpl. lia.
  - rewrite decide_False by done. rewrite filter_cons, filter_nil. simpl.
    destruct (unconditional_rules_types _ _ Hrule) as [_ Hty].
    rewrite decide_False by (intros [? _]; done). simpl. lia.
Qed.

(** Every alert of a stream comes from an event of the stream, whose time
    and account it carries: either a failed login, and then the alert
    reports a count between the threshold and the number of failed logins of
    the account, or an event of an unconditional rule, and then the alert has
    the rule's type and the event's message. *)
Theorem alerts_sound (events : list Event) (a : Alert) :
  a ∈ alerts (analyze_stream events initial_state) →
  ∃ e, e ∈ events ∧ al_Time a = ev_Time e ∧ al_Account a = ev_Account e
    ∧ ((ev_EventID e = FAILED_LOGIN_EVENT_ID
        ∧ al_Type a = "Multiple Failed Logins"
        ∧ ∃ n, FAILED_LOGIN_THRESHOLD ≤ n ≤ failed_count (ev_Account e) events
               ∧ al_Details a = Some (pretty n +:+ " failed attempts"))
       ∨ ((ev_EventID e, al_Type a) ∈ unconditional_rules
          ∧ al_Details a = ev_Message e)).
Proof.
  induction events as [|e' events IH] using rev_ind.
  - simpl. by intros ?%elem_of_nil.
  - rewrite analyze_stream_snoc, analyze_event_unfold. cbn [alerts].
    rewrite initial_counts. intros [Hin | Hin]%elem_of_app.
    + destruct (IH Hin) as (e & He & Ht & Ha & Hcase).
      exists e. split; [apply elem_of_app; by left |].
      split; [done |]. split; [done |].
      destruct Hcase as [(Hid & Hty & n & Hn & Hd) | ?]; [left | by right].
      split; [done |]. split; [done |]. exists n. split; [| done].
      rewrite failed_count_app.
      pose proof (failed_count_nonneg (ev_Account e) [e']). lia.
    + exists e'.
      split; [apply elem_of_app; right; by apply list_elem_of_singleton |].
      destruct (new_alerts_cases e' (failed_count (ev_Account e') events))
        as [Hnew | [(Hid & Hge & Hnew) | (Hid & type & Hrule & Hnew)]];
        rewrite Hnew in Hin.
      * by apply elem_of_nil in Hin.
      * apply list_elem_of_singleton in Hin. subst a. simpl.
        split; [done |]. split; [done |]. left.
        split; [done |]. split; [done |].
        exists (failed_count (ev_Account e') events + 1). split; [| done].
        rewrite failed_count_app, failed_count_single, !decide_True by done.
        lia.
      * apply list_elem_of_singleton in Hin. subst a. simpl.
        split; [done |]. split; [done |]. by right.
Qed.

Lemma alerts_sound_witness :
  let a := {| al_Time := "t6"; al_Account := Some "alice";
              al_Type := "New User Account Created";
              al_Details := Some "A user account was created." |} in
  let events := four_failed_bob ++ [failed_login "t5" "bob"; account_created_alice] in
  a ∈ alerts (analyze_stream events initial_state)
  ∧ ∃ e, e ∈ events ∧ al_Time a = ev_Time e ∧ al_Account a = ev_Account e
      ∧ ((ev_EventID e = FAILED_LOGIN_EVENT_ID
          ∧ al_Type a = "Multiple Failed Logins"
          ∧ ∃ n, FAILED_LOGIN_THRESHOLD ≤ n ≤ failed_count (ev_Account e) events
                 ∧ al_Details a = Some (pretty n +:+ " failed attempts"))
         ∨ ((ev_EventID e, al_Type a) ∈ unconditional_rules
            ∧ al_Details a = ev_Message e)).
Proof.
  intros a events.
  assert (Hin : a ∈ alerts (analyze_stream events initial_state)).
  { apply (bool_decide_unpack _). vm_compute. exact I. }
  split; [exact Hin |]. exact (alerts_sound events a Hin).
Defined.

(** Every event of an unconditional rule in a stream has its alert in the
    alert list, from whatever state the stream starts. *)
Theorem unconditional_alerts_complete (events : list Event) (s : State)
    (e : Event) (type : string) :
  e ∈ events →
  (ev_EventID e, type) ∈ unconditional_rules →
  {| al_Time := ev_Time e; al_Account := ev_Account e;
     al_Type := type; al_Details := ev_Message e |}
  ∈ alerts (analyze_stream events s).
Proof.
  intros (l1 & l2 & ->)%list_elem_of_split Hrule.
  rewrite analyze_stream_app. simpl.
  eapply elem_of_prefix; [| apply analyze_stream_prefix].
  rewrite analyze_event_unfold. cbn [alerts].
  rewrite (new_alerts_unconditional _ _ _ Hrule).
  apply elem_of_app. right. by apply list_elem_of_singleton.
Qed.

Lemma unconditional_alerts_complete_witness :
  {| al_Time := "t6"; al_Account := Some "alice";
     al_Type := "New User Account Created";
     al_Details := Some "A user account was created." |}
  ∈ alerts (analyze_stream [logon_carol; account_created_alice; logon_carol]
              initial_state).
Proof.
  apply (unconditional_alerts_complete _ _ account_created_alice).
  - right. left.
  - left.
Defined.

(** ** Further properties of the record parser *)

Lemma find_TargetUserName_head (root : Element) :
  find root path_TargetUserName
  = head (filter is_TargetUserName (descendants root)).
Proof.
  unfold find, iterfind, path_TargetUserName.
  cbn [fold_left]. change (select Self [root]) with [root].
  rewrite select_Descendant. cbn [select].
  rewrite list_filter_filter. f_equal.
  apply list_filter_iff. intros e. unfold is_TargetUserName. tauto.
Qed.

Lemma find_Message_head (root : Element) :
  find root path_Message
  = head (flat_map (λ ri, filter (λ m, tag m = ns "Message") (children ri))
            (filter (λ ri, tag ri = ns "RenderingInfo") (descendants root))).
Proof.
  unfold find, iterfind, path_Message.
  cbn [fold_left]. change (select Self [root]) with [root].
  by rewrite select_Descendant.
Qed.

(** A path of two child steps finds the first grandchild with the two tags. *)
Lemma find_grandchild (root : Element) (parent child : string) :
  find root [Child (ns parent); Child (ns child)]
  = head (grandchildren root parent child).
Proof.
  unfold find, iterfind, grandchildren.
  cbn [fold_left select flat_map]. by rewrite app_nil_r.
Qed.

Lemma find_EventID_head (root : Element) :
  find root path_EventID = head (grandchildren root "System" "EventID").
Proof. apply find_grandchild. Qed.

Lemma find_TimeCreated_head (root : Element) :
  find root path_TimeCreated = head (grandchildren root "System" "TimeCreated").
Proof. apply find_grandchild. Qed.

Lemma find_TimeCreated_lacks (root : Element) :
  lacks_TimeCreated root → find root path_TimeCreated = None.
Proof.
  intros Hlacks. rewrite find_TimeCreated_head. unfold grandchildren.
  rewrite flat_map_nil; [done |].
  apply Forall_forall. intros sys [Htag Hin]%list_elem_of_filter.
  apply filter_nil_Forall.
  unfold lacks_TimeCreated in Hlacks.
  rewrite Forall_forall in Hlacks. by apply Hlacks.
Qed.

Section ParserMore.

Variable fromstring : string → result Element.
Variable int_of_str : string → option Z.

(** The account of a parsed event is the text of the first element, in
    document order and at any depth below the root, that is a [Data] element
    named [TargetUserName]; its message is the text of the first [Message]
    child of the [RenderingInfo] elements below the root, taken in document
    order.  The root element itself is never the match. *)
Theorem optional_fields_first_match (record_xml : string) (root : Element)
    (ev : Event) :
  fromstring record_xml = inr root →
  parse_event fromstring int_of_str record_xml = inr ev →
  ev_Account ev
  = match head (filter is_TargetUserName (descendants root)) with
    | Some e => text e
    | None => Some "N/A"
    end
  ∧ ev_Message ev
    = match head (flat_map
                    (λ ri, filter (λ m, tag m = ns "Message") (children ri))
                    (filter (λ ri, tag ri = ns "RenderingInfo")
                            (descendants root))) with
      | Some e => text e
      | None => Some ""
      end.
Proof.
  intros Hroot Hev.
  destruct (parse_event_inr _ _ _ _ Hev) as (root' & e1 & s & e2 & Hroot' & H).
  rewrite Hroot in Hroot'. injection Hroot' as <-.
  destruct H as (_ & _ & _ & _ & _ & -> & ->).
  by rewrite find_TargetUserName_head, find_Message_head.
Qed.

(** [parse_event] returns an event exactly when the text parses to a tree in
    which the first [EventID] child of the [System] children of the root has
    text that [int] accepts and the first [TimeCreated] child of the [System]
    children of the root has the attribute [SystemTime]; the event then
    carries that number and that attribute value as they are, and the
    optional fields of the first matches below the root. *)
Theorem parse_event_succeeds_iff (record_xml : string) (ev : Event) :
  parse_event fromstring int_of_str record_xml = inr ev
  ↔ ∃ root e1 s e2,
      fromstring record_xml = inr root
      ∧ head (grandchildren root "System" "EventID") = Some e1
      ∧ text e1 = Some s
      ∧ int_of_str s = Some (ev_EventID ev)
      ∧ head (grandchildren root "System" "TimeCreated") = Some e2
      ∧ attrib e2 !! "SystemTime" = Some (ev_Time ev)
      ∧ ev_Account ev
        = match head (filter is_TargetUserName (descendants root)) with
          | Some e => text e
          | None => Some "N/A"
          end
      ∧ ev_Message ev
        = match head (flat_map
                        (λ ri, filter (λ m, tag m = ns "Message") (children ri))
                        (filter (λ ri, tag ri = ns "RenderingInfo")
                                (descendants root))) with
          | Some e => text e
          | None => Some ""
          end.
Proof.
  split.
  - intros Hev.
    destruct (parse_event_inr _ _ _ _ Hev)
      as (root & e1 & s & e2 & Hroot & Hid & Htext & Hint & Htime & Hattr
          & Hacc & Hmsg).
    exists root, e1, s, e2.
    rewrite <- find_EventID_head, <- find_TimeCreated_head,
      <- find_TargetUserName_head, <- find_Message_head.
    done.
  - intros (root & e1 & s & e2 & Hroot & Hid & Htext & Hint & Htime & Hattr
            & Hacc & Hmsg).
    rewrite <- find_EventID_head in Hid.
    rewrite <- find_TimeCreated_head in Htime.
    rewrite <- find_TargetUserName_head in Hacc.
    rewrite <- find_Message_head in Hmsg.
    rewrite (parse_event_mandatory _ _ _ _ _ _ _ _ _
               Hroot Hid Htext Hint Htime Hattr).
    destruct ev. simpl in *. by subst.
Qed.

(** With a good event id (the first [EventID] child of the [System] children
    of the root has text that [int] accepts), a tree without a [TimeCreated]
    child of a [System] child of the root raises [AttributeError], and a tree
    whose first such child has no [SystemTime] attribute raises [KeyError]. *)
Theorem time_created_errors (record_xml : string) (root e1 : Element)
    (s : string) (n : Z) :
  fromstring record_xml = inr root →
  head (grandchildren root "System" "EventID") = Some e1 →
  text e1 = Some s →
  int_of_str s = Some n →
  (lacks_TimeCreated root →
     parse_event fromstring int_of_str record_xml = inl AttributeError)
  ∧ (∀ e2, head (grandchildren root "System" "TimeCreated") = Some e2 →
           attrib e2 !! "SystemTime" = None →
           parse_event fromstring int_of_str record_xml = inl KeyError).
Proof.
  intros Hroot Hid Htext Hint. rewrite <- find_EventID_head in Hid.
  unfold parse_event.
  rewrite Hroot. simpl. rewrite Hid. simpl. rewrite Htext. simpl.
  rewrite Hint. simpl. split.
  - intros Hlacks. by rewrite (find_TimeCreated_lacks _ Hlacks).
  - intros e2 Htime Hattr. rewrite <- find_TimeCreated_head in Htime.
    rewrite Htime. simpl. unfold getitem. by rewrite Hattr.
Qed.

(** ** Further properties of [analyze_events] *)

(** When every record parses, [analyze_events] returns normally and leaves
    the state of the stream of the parsed events. *)
Theorem analyze_events_all_parse (records : list string) (events : list Event)
    (s : State) :
  Forall2 (λ r ev, parse_event fromstring int_of_str r = inr ev) records events →
  analyze_events fromstring int_of_str records s
  = (inr (), analyze_stream events s).
Proof.
  intros Hall. revert s.
  induction Hall as [|r ev records events Hr _ IH]; intros s; simpl; [done |].
  by rewrite Hr, IH.
Qed.

(** Two runs of [analyze_events], one after the other, are one run on the
    records of both: the second starts from the counters and alerts the first
    left, and does not start when the first raised. *)
Theorem analyze_events_app (records1 records2 : list string) (s : State) :
  analyze_events fromstring int_of_str (records1 ++ records2) s
  = match analyze_events fromstring int_of_str records1 s with
    | (inl e, s') => (inl e, s')
    | (inr _, s') => analyze_events fromstring int_of_str records2 s'
    end.
Proof.
  revert s. induction records1 as [|r records1 IH]; intros s; simpl; [done |].
  destruct (parse_event fromstring int_of_str r) as [e|ev]; [done |].
  apply IH.
Qed.

(** The first record that does not parse ends the loop with its exception:
    the records after it are not looked at, and the state is the one the
    records before it left. *)
Theorem analyze_events_aborts (records1 : list string) (events1 : list Event)
    (bad : string) (e : exn) (rest : list string) (s : State) :
  Forall2 (λ r ev, parse_event fromstring int_of_str r = inr ev)
          records1 events1 →
  parse_event fromstring int_of_str bad = inl e →
  analyze_events fromstring int_of_str (records1 ++ bad :: rest) s
  = (inl e, analyze_stream events1 s).
Proof.
  intros Hall Hbad. revert s.
  induction Hall as [|r ev records events Hr _ IH]; intros s; simpl.
  - by rewrite Hbad.
  - by rewrite Hr, IH.
Qed.

End ParserMore.

Lemma optional_fields_first_match_witness :
  let ev := {| ev_EventID := 4625; ev_Time := "2024-05-01 10:00:00";
               ev_Account := Some "bob";
               ev_Message := Some "An account failed to log on." |} in
  sample_parse full_xml = inr ev
  ∧ ev_Account ev = text (element "Data" [("Name", "TargetUserName")] (Some "bob") [])
  ∧ ev_Message ev = text (element "Message" [] (Some "An account failed to log on.") []).
Proof.
  intros ev.
  assert (Hev : sample_parse full_xml = inr ev) by (vm_compute; reflexivity).
  split; [exact Hev |].
  destruct (optional_fields_first_match sample_fromstring str_to_int
              full_xml full_root ev eq_refl Hev) as [Ha Hm].
  split.
  - etrans; [exact Ha |]. vm_compute. reflexivity.
  - etrans; [exact Hm |]. vm_compute. reflexivity.
Defined.

Lemma time_created_errors_witness :
  lacks_TimeCreated no_time_root
  ∧ parse_event more_fromstring str_to_int no_time_xml = inl AttributeError
  ∧ parse_event more_fromstring str_to_int no_attr_xml = inl KeyError.
Proof.
  assert (Hlacks : lacks_TimeCreated no_time_root)
    by (apply (bool_decide_unpack _); vm_compute; exact I).
  split; [exact Hlacks |]. split.
  - apply (proj1 (time_created_errors more_fromstring str_to_int no_time_xml
                    no_time_root (element "EventID" [] (Some "4625") [])
                    "4625" 4625 eq_refl eq_refl eq_refl eq_refl)).
    exact Hlacks.
  - apply (proj2 (time_created_errors more_fromstring str_to_int no_attr_xml
                    no_attr_root (element "EventID" [] (Some "4625") [])
                    "4625" 4625 eq_refl eq_refl eq_refl eq_refl)
             (element "TimeCreated" [] None []));
      vm_compute; reflexivity.
Defined.

Lemma analyze_events_all_parse_witness :
  analyze_events sample_fromstring str_to_int [full_xml; bare_xml] initial_state
  = (inr (),
     analyze_stream
       [ {| ev_EventID := 4625; ev_Time := "2024-05-01 10:00:00";
            ev_Account := Some "bob";
            ev_Message := Some "An account failed to log on." |};
         {| ev_EventID := 7036; ev_Time := "2024-05-01 10:05:00";
            ev_Account := Some "N/A"; ev_Message := Some "" |} ]
       initial_state).
Proof.
  apply analyze_events_all_parse.
  repeat constructor; vm_compute; reflexivity.
Defined.

Lemma analyze_events_aborts_witness :
  analyze_events sample_fromstring str_to_int
    ([bare_xml] ++ bad_id_xml :: [full_xml]) initial_state
  = (inl ValueError,
     analyze_stream
       [ {| ev_EventID := 7036; ev_Time := "2024-05-01 10:05:00";
            ev_Account := Some "N/A"; ev_Message := Some "" |} ]
       initial_state).
Proof.
  apply analyze_events_aborts.
  - repeat constructor; vm_compute; reflexivity.
  - vm_compute. reflexivity.
Defined.

Lemma parse_event_succeeds_iff_witness :
  sample_parse bare_xml
  = inr {| ev_EventID := 7036; ev_Time := "2024-05-01 10:05:00";
           ev_Account := Some "N/A"; ev_Message := Some "" |}.
Proof.
  apply (proj2 (parse_event_succeeds_iff sample_fromstring str_to_int bare_xml _)).
  exists bare_root, (element "EventID" [] (Some "7036") []), "7036",
    (element "TimeCreated" [("SystemTime", "2024-05-01 10:05:00")] None []).
  repeat split; vm_compute; reflexivity.
Defined.

(** ** Further properties of the export, the display and the script *)

Lemma to_csv_alerts (a : Alert) (al : list Alert) :
  to_csv (DataFrame_of_records (a :: al))
  = ["Time"; "Account"; "Type"; "Details"] :: map alert_row (a :: al).
Proof.
  unfold to_csv, DataFrame_of_records. cbn [columns rows].
  by rewrite map_map.
Qed.

(** The file the export writes is a rectangular table, four cells in every
    row and one row more than there are alerts, and the export changes no
    file of another name. *)
Theorem export_table_shape (filename : string) (s : State) (w : World) :
  (∀ table, alerts s ≠ [] →
     files (save_alerts_csv filename s w) !! filename = Some table →
     length table = S (length (alerts s))
     ∧ Forall (λ row, length row = 4%nat) table)
  ∧ (∀ other, other ≠ filename →
       files (save_alerts_csv filename s w) !! other = files w !! other).
Proof.
  unfold save_alerts_csv. split.
  - intros table Hne. destruct (alerts s) as [|a al]; [done |].
    cbn [files]. rewrite lookup_insert_eq, to_csv_alerts. intros [= <-].
    split; [simpl; by rewrite length_map |].
    constructor; [done |].
    change (Forall (λ row, length row = 4%nat) (map alert_row (a :: al))).
    apply Forall_forall.
    by intros row [x [<- _]]%list_elem_of_In%in_map_iff.
  - intros other Hother. destruct (alerts s) as [|a al]; [done |].
    cbn [files]. by rewrite lookup_insert_ne.
Qed.

Lemma export_table_shape_witness :
  let s := analyze_stream [account_created_alice; account_created_alice]
             initial_state in
  let row := ["t6"; "alice"; "New User Account Created";
              "A user account was created."] in
  let table := [["Time"; "Account"; "Type"; "Details"]; row; row] in
  files (save_alerts_csv "alerts_report.csv" s empty_world) !! "alerts_report.csv"
  = Some table
  ∧ length table = 3%nat ∧ Forall (λ row, length row = 4%nat) table.
Proof.
  intros s row table.
  assert (Htable : files (save_alerts_csv "alerts_report.csv" s empty_world)
                     !! "alerts_report.csv" = Some table)
    by (vm_compute; reflexivity).
  split; [exact Htable |].
  apply (proj1 (export_table_shape "alerts_report.csv" s empty_world) table);
    [by vm_compute | exact Htable].
Defined.






Section MainFacts.

Variable fromstring : string → result Element.
Variable int_of_str : string → option Z.
Variable markup_ok : string → bool.

(** A record that does not parse ends the whole run with its exception:
    after the start banner nothing is printed and no file is written,
    whatever alerts the records before it produced. *)
Theorem main_aborts_without_output (records1 : list string)
    (events1 : list Event) (bad : string) (e : exn) (rest : list string)
    (fs : gmap string csv_file) :
  Forall2 (λ r ev, parse_event fromstring int_of_str r = inr ev)
          records1 events1 →
  parse_event fromstring int_of_str bad = inl e →
  main fromstring int_of_str markup_ok (records1 ++ bad :: rest) fs
  = {| run_result := inl e;
       run_state := analyze_stream events1 initial_state;
       run_files := fs;
       run_console := [banner_start] |}.
Proof.
  intros Hall Hbad. unfold main.
  by rewrite (analyze_events_aborts _ _ _ _ _ _ _ _ Hall Hbad).
Qed.


End MainFacts.

Lemma main_aborts_without_output_witness :
  let r := main sample_fromstring str_to_int sample_markup_ok
             ([full_xml] ++ no_id_xml :: [bare_xml]) ∅ in
  run_result r = inl AttributeError ∧ run_files r = ∅
  ∧ run_console r = [banner_start].
Proof.
  intros r. subst r.
  rewrite (main_aborts_without_output sample_fromstring str_to_int
             sample_markup_ok [full_xml]
             [ {| ev_EventID := 4625; ev_Time := "2024-05-01 10:00:00";
                  ev_Account := Some "bob";
                  ev_Message := Some "An account failed to log on." |} ]
             no_id_xml AttributeError).
  - done.
  - constructor; [vm_compute; reflexivity | constructor].
  - vm_compute. reflexivity.
Defined.

